(** * The query page of the admin console

    A model of [pages/queries/[queryId]/index.tsx]: the [QueryPage]
    component, its one piece of local state ([query], from [useState]),
    the seeding effect ([useEffect] on [serverQuery]), the three
    asynchronous handlers and the selection of [pageContent].

    The collaborators the page imports ([useQuery], [useQueryResubmit],
    [useQueryExecution], [useQueryPut], [mapQuery], the [Query] model
    and the components it renders) are not part of the page and are
    taken as parameters of the development. *)

From stdpp Require Import base decidable option list strings.

(** ** Promises *)

(** How a promise settles.  [Err] is the type of rejection reasons. *)
Inductive Outcome (Err A : Type) : Type :=
  | Resolved (a : A)
  | Rejected (e : Err).
Arguments Resolved {Err A} a.
Arguments Rejected {Err A} e.

Section QueryPage.

(** [Query] objects are compared by identity, which is what the
    dependency array of [useEffect] does ([Object.is]). *)
Context {Query : Type} `{!EqDecision Query}.
(** [mapQuery] from [@/lib/domain/query]. *)
Context {MappedQuery : Type} (mapQuery : Query → MappedQuery).
(** Loader errors and rejection reasons. *)
Context {Err : Type}.
(** The value of [router.query.queryId]. *)
Context {Param : Type}.
(** [QueryPutRequest] from [useQueryPut]. *)
Context {QueryPutRequest : Type}.
(** What the promise returned by [mutate()] resolves with. *)
Context {Refreshed : Type}.

(** ** What one render of [QueryPage] reads *)

(** [router.query] and the result of [useQuery(promptId)].  A value of
    type [Query | undefined] is an [option]; an object is truthy, so
    the truthiness tests of the source are tests on [Some]/[None]. *)
Record Render : Type := {
  promptId : Param;
  serverQuery : option Query;
  isLoadingServerQuery : bool;
  error : option Err;
}.

(** [useState<Query | undefined>(undefined)], together with the
    dependency array the effect saw when it last ran ([None] before
    the first commit). *)
Record PageState : Type := {
  query : option Query;
  deps : option (option Query);
}.

(** The state of a freshly mounted page. *)
Definition mount : PageState := {| query := None; deps := None |}.

(** ** [setQuery] *)

(** The argument of a state setter: a value, or a function of the
    previous state. *)
Inductive SetStateAction : Type :=
  | Value (v : option Query)
  | Updater (f : option Query → option Query).

Definition setQuery (a : SetStateAction) (st : PageState) : PageState :=
  {| query := match a with
              | Value v => v
              | Updater f => f (query st)
              end;
     deps := deps st |}.

(** ** The seeding effect (lines 29-38) *)

(** The body of the effect. *)
Definition effect (r : Render) (st : PageState) : PageState :=
  if serverQuery r is Some _ then
    setQuery
      (Updater (λ prevState,
         if decide (prevState = None) then serverQuery r else prevState))
      st
  else st.

(** The effect phase of a commit: the body runs on the first commit
    and whenever [serverQuery] is not the one recorded by the previous
    run. *)
Definition commit (r : Render) (st : PageState) : PageState :=
  if decide (deps st = Some (serverQuery r)) then st
  else
    let st' := effect r st in
    {| query := query st'; deps := Some (serverQuery r) |}.

(** ** The handlers (lines 40-56) *)

(** The remote operations behind [resubmitQuery], [executeQuery] and
    [putQuery]. *)
Inductive RemoteCall : Type :=
  | Resubmit (id : Param)
  | Execute (id : Param) (sql_query : string)
  | Put (id : Param) (puts : QueryPutRequest).

(** The body of an [async] handler of this page: it awaits a remote
    operation, writes the local state, and ends with
    [return mutate()]. *)
Inductive Async : Type :=
  | Await (c : RemoteCall) (k : Query → Async)
  | SetQuery (a : SetStateAction) (k : Async)
  | ReturnMutate.

Definition handleResubmitQuery (r : Render) : Async :=
  Await (Resubmit (promptId r)) (λ newQuery,
  SetQuery (Value (Some newQuery))
  ReturnMutate).

Definition handleExecuteQuery (r : Render) (sql_query : string) : Async :=
  Await (Execute (promptId r) sql_query) (λ newQuery,
  SetQuery (Value (Some newQuery))
  ReturnMutate).

Definition handlePutQuery (r : Render) (puts : QueryPutRequest) : Async :=
  Await (Put (promptId r) puts) (λ newQuery,
  SetQuery (Value (Some newQuery))
  ReturnMutate).

(** The three callbacks handed to the workspace, with their
    arguments. *)
Inductive Handler : Type :=
  | OnResubmitQuery
  | OnExecuteQuery (sql_query : string)
  | OnPutQuery (puts : QueryPutRequest).

Definition handler (h : Handler) (r : Render) : Async :=
  match h with
  | OnResubmitQuery => handleResubmitQuery r
  | OnExecuteQuery sql_query => handleExecuteQuery r sql_query
  | OnPutQuery puts => handlePutQuery r puts
  end.

Definition call_of (h : Handler) (r : Render) : RemoteCall :=
  match h with
  | OnResubmitQuery => Resubmit (promptId r)
  | OnExecuteQuery sql_query => Execute (promptId r) sql_query
  | OnPutQuery puts => Put (promptId r) puts
  end.

(** How the collaborators answer: the outcome of each remote
    operation and of the promise returned by [mutate()]. *)
Record World : Type := {
  remote : RemoteCall → Outcome Err Query;
  refresh : Outcome Err Refreshed;
}.

(** What a handler does, in order. *)
Inductive Effect : Type :=
  | ERemote (c : RemoteCall)
  | EWrote (v : option Query)
  | EMutate.

(** Runs a handler body.  The state given is the page state when the
    awaited operation settles (the part of a handler before its
    [await] neither reads nor writes the state).  An awaited promise
    that rejects ends the handler: the rest of the body is skipped and
    the handler's own promise rejects with the same reason.
    [return mutate()] settles the handler's promise as the promise
    returned by [mutate()] settles. *)
Fixpoint run (w : World) (p : Async) (st : PageState)
  : PageState * list Effect * Outcome Err Refreshed :=
  match p with
  | Await c k =>
      match remote w c with
      | Resolved newQuery =>
          let '(st', tr, o) := run w (k newQuery) st in
          (st', ERemote c :: tr, o)
      | Rejected e => (st, [ERemote c], Rejected e)
      end
  | SetQuery a k =>
      let st1 := setQuery a st in
      let '(st', tr, o) := run w k st1 in
      (st', EWrote (query st1) :: tr, o)
  | ReturnMutate => (st, [EMutate], refresh w)
  end.

Definition state_after (x : PageState * list Effect * Outcome Err Refreshed)
  : PageState := x.1.1.
Definition trace_of (x : PageState * list Effect * Outcome Err Refreshed)
  : list Effect := x.1.2.
Definition outcome_of (x : PageState * list Effect * Outcome Err Refreshed)
  : Outcome Err Refreshed := x.2.

(** ** [pageContent] (lines 58-75) *)

Inductive View : Type :=
  | Fragment                            (* <></> *)
  | LoadingQuery
  | QueryError
  | QueryWorkspace (query : MappedQuery).

Definition pageContent (isLoadingServerQuery : bool) (error : option Err)
    (query : option Query) : View :=
  if isLoadingServerQuery && bool_decide (query = None) then LoadingQuery
  else if error is Some _ then QueryError
  else if query is Some q then QueryWorkspace (mapQuery q)
  else Fragment.

(** What a render of the page shows. *)
Definition render (r : Render) (st : PageState) : View :=
  pageContent (isLoadingServerQuery r) (error r) (query st).

(** A new loader report is rendered with the state as it is, then the
    effect runs; when the effect changed the state the page renders
    again. *)
Definition frames (r : Render) (st : PageState) : list View :=
  render r st ::
  (if decide (query (commit r st) = query st) then []
   else [render r (commit r st)]).

(** The view the page rests on for a loader report. *)
Definition settled (r : Render) (st : PageState) : View :=
  render r (commit r st).

(** ** The page as a machine *)

Inductive Event : Type :=
  | Rendered (r : Render)
  | Dispatched (h : Handler) (r : Render) (w : World).

Definition step (st : PageState) (ev : Event) : PageState :=
  match ev with
  | Rendered r => commit r st
  | Dispatched h r w => state_after (run w (handler h r) st)
  end.

Definition exec (evs : list Event) (st : PageState) : PageState :=
  foldl step st evs.

(** The first defined value of a sequence of loader data. *)
Fixpoint firstDefined (ds : list (option Query)) : option Query :=
  match ds with
  | [] => None
  | Some q :: _ => Some q
  | None :: ds => firstDefined ds
  end.

(** The number of commits of a sequence that changed [query]. *)
Fixpoint adoptions (rs : list Render) (st : PageState) : nat :=
  match rs with
  | [] => 0
  | r :: rs =>
      (if decide (query (commit r st) = query st) then 0 else 1)
      + adoptions rs (commit r st)
  end.

(** A loader report read under another identifier. *)
Definition at_promptId (id : Param) (r : Render) : Render :=
  {| promptId := id; serverQuery := serverQuery r;
     isLoadingServerQuery := isLoadingServerQuery r; error := error r |}.

(** The state after a sequence of commits. *)
Definition commits (rs : list Render) (st : PageState) : PageState :=
  foldl (λ st r, commit r st) st rs.

(** The recorded dependency and the state agree: when the effect last
    ran on a defined [serverQuery], the state is set. *)
Definition consistent (st : PageState) : Prop :=
  ∀ q, deps st = Some (Some q) → is_Some (query st).

(** ** The history of a page *)

(** The query a handler run writes: the one its remote operation
    resolved with, if it resolved. *)
Definition resolution (ev : Event) : option Query :=
  match ev with
  | Rendered _ => None
  | Dispatched h r w =>
      if remote w (call_of h r) is Resolved newQuery then Some newQuery
      else None
  end.

(** The query written by the last handler run of a history whose remote
    operation resolved. *)
Fixpoint lastResolved (evs : list Event) : option Query :=
  match evs with
  | [] => None
  | ev :: evs =>
      if lastResolved evs is Some q then Some q else resolution ev
  end.

(** The loader data of the renders of a history, in order. *)
Fixpoint deliveries (evs : list Event) : list (option Query) :=
  match evs with
  | [] => []
  | Rendered r :: evs => serverQuery r :: deliveries evs
  | Dispatched _ _ _ :: evs => deliveries evs
  end.

(** The remote operations of a trace, in order. *)
Fixpoint remoteCalls (tr : list Effect) : list RemoteCall :=
  match tr with
  | [] => []
  | ERemote c :: tr => c :: remoteCalls tr
  | _ :: tr => remoteCalls tr
  end.

(** The identifier a remote operation is called with. *)
Definition call_id (c : RemoteCall) : Param :=
  match c with
  | Resubmit id => id
  | Execute id _ => id
  | Put id _ => id
  end.

End QueryPage.

(** ** Sample data

    A concrete instance of the parameters, on which the statements
    below are evaluated: queries are numbered, [mapQuery] is the
    identity, errors and route parameters are strings, and a refresh
    resolves with nothing. *)
Module Sample.

Definition Render : Type := @Render nat string string.
Definition PageState : Type := @PageState nat.
Definition World : Type := @World nat string string string unit.
Definition Event : Type := @Event nat string string string unit.
Definition View : Type := @View nat.

Definition mapQuery : nat → nat := id.

(** The loader has no data yet. *)
Definition loading (id : string) : Render :=
  {| promptId := id; serverQuery := None;
     isLoadingServerQuery := true; error := None |}.

(** The loader holds query [q]. *)
Definition loaded (id : string) (q : nat) : Render :=
  {| promptId := id; serverQuery := Some q;
     isLoadingServerQuery := false; error := None |}.

(** The loader holds query [q] and reports an error (a failed
    revalidation). *)
Definition failed (id : string) (q : nat) : Render :=
  {| promptId := id; serverQuery := Some q;
     isLoadingServerQuery := false; error := Some "network"%string |}.

(** Every remote operation resolves with query [q]; the refresh settles
    as [o]. *)
Definition answers (q : nat) (o : Outcome string unit) : World :=
  {| remote := λ _, Resolved q; refresh := o |}.

(** Every remote operation rejects with [e]. *)
Definition rejects (e : string) : World :=
  {| remote := λ _, Rejected e; refresh := Resolved () |}.

(** The page after it was seeded with query [1] for identifier ["a"]. *)
Definition seeded : PageState := commit (loaded "a" 1) mount.

End Sample.

(** * Properties *)

Section Properties.

Context {Query : Type} `{!EqDecision Query}.
Context {MappedQuery : Type} (mapQuery : Query → MappedQuery).
Context {Err Param QueryPutRequest Refreshed : Type}.

Local Abbreviation Render := (@Render Query Err Param).
Local Abbreviation PageState := (@PageState Query).
Local Abbreviation World := (@World Query Err Param QueryPutRequest Refreshed).
Local Abbreviation Handler := (@Handler QueryPutRequest).
Local Abbreviation Event := (@Event Query Err Param QueryPutRequest Refreshed).
Local Abbreviation Effect := (@Effect Query Param QueryPutRequest).
Local Abbreviation Rendered :=
  (@Rendered Query Err Param QueryPutRequest Refreshed).

Implicit Types (r : Render) (st : PageState) (w : World) (h : Handler).
Implicit Types (q : Query) (e : Err) (ev : Event) (evs : list Event).

(** ** The seeding effect *)

Lemma effect_query r st :
  query (effect r st) =
  if query st is Some q then Some q else serverQuery r.
Proof.
  unfold effect. destruct (serverQuery r) as [sq|] eqn:Hsq; simpl.
  - destruct (query st); by simpl.
  - by destruct (query st).
Qed.

Lemma commit_query_set r st q :
  query st = Some q → query (commit r st) = Some q.
Proof.
  intros Hq. unfold commit. case_decide; [done|].
  simpl. by rewrite effect_query, Hq.
Qed.

Lemma commit_deps r st : deps (commit r st) = Some (serverQuery r).
Proof. unfold commit. by case_decide. Qed.

Lemma mount_consistent : consistent (mount : PageState).
Proof. by intros q. Qed.

Lemma commit_consistent r st : consistent st → consistent (commit r st).
Proof.
  intros Hst q. unfold commit. case_decide as Hd; [apply Hst|].
  simpl. intros [= Hsq]. rewrite effect_query, Hsq.
  destruct (query st); eauto.
Qed.

Lemma commit_query_unset r st :
  consistent st → query st = None → query (commit r st) = serverQuery r.
Proof.
  intros Hst Hq. unfold commit. case_decide as Hd.
  - destruct (serverQuery r) as [sq|]; [|done].
    destruct (Hst sq Hd) as [q' Hq']. congruence.
  - simpl. by rewrite effect_query, Hq.
Qed.

(** ** The handlers *)

Lemma run_handler w h r st :
  run w (handler h r) st =
  match remote w (call_of h r) with
  | Resolved newQuery =>
      ({| query := Some newQuery; deps := deps st |},
       [ERemote (call_of h r); EWrote (Some newQuery); EMutate],
       refresh w)
  | Rejected e => (st, [ERemote (call_of h r)], Rejected e)
  end.
Proof. destruct h; simpl; by destruct (remote w _). Qed.

Lemma step_consistent st ev : consistent st → consistent (step st ev).
Proof.
  intros Hst. destruct ev as [r|h r w]; simpl.
  - by apply commit_consistent.
  - rewrite run_handler. destruct (remote w _); [|done].
    intros q _. by eexists.
Qed.

Lemma exec_consistent evs st : consistent st → consistent (exec evs st).
Proof.
  unfold exec. revert st.
  induction evs as [|ev evs IH]; intros st Hst; [done|].
  simpl. by apply IH, step_consistent.
Qed.

Lemma exec_rendered (rs : list Render) st :
  exec (Rendered <$> rs) st = commits rs st.
Proof.
  unfold exec, commits. revert st.
  induction rs as [|r rs IH]; intros st; [done|].
  simpl. apply IH.
Qed.

Lemma commits_set (rs : list Render) st q :
  query st = Some q →
  query (commits rs st) = Some q ∧ adoptions rs st = 0.
Proof.
  revert st. induction rs as [|r rs IH]; intros st Hq; [done|].
  simpl. pose proof (commit_query_set r st q Hq) as Hc.
  destruct (IH _ Hc) as [-> ->].
  split; [done|]. case_decide; [done|congruence].
Qed.

Lemma commits_unset (rs : list Render) st :
  consistent st → query st = None →
  query (commits rs st) = firstDefined (serverQuery <$> rs)
  ∧ adoptions rs st =
      if firstDefined (serverQuery <$> rs) is Some _ then 1 else 0.
Proof.
  revert st. induction rs as [|r rs IH]; intros st Hst Hq; [done|].
  simpl. pose proof (commit_query_unset r st Hst Hq) as Hc.
  destruct (serverQuery r) as [sq|] eqn:Hsq.
  - destruct (commits_set rs _ sq Hc) as [-> ->].
    split; [done|]. case_decide; [congruence|done].
  - destruct (IH (commit r st)) as [-> ->];
      [by apply commit_consistent|done|].
    split; [done|]. case_decide; [done|congruence].
Qed.

(** C1.  One-shot latch.  Take the page in any state it can reach from
    its mount (by renders and by handlers), and let the loader then
    deliver any sequence of data.  When the local state is unset, it
    ends as the first defined value of the sequence (and stays unset
    when there is none), and the state changes exactly once in that
    case; when the local state is set, whether by an earlier seed or by
    a mutation result, it ends as it was and no delivery changes it,
    whatever the loader delivers. *)
Theorem seed_latch (pre : list Event) (rs : list Render) :
  let st := exec pre mount in
  query (exec (Rendered <$> rs) st) =
    (if query st is Some held then Some held
     else firstDefined (serverQuery <$> rs))
  ∧ adoptions rs st =
    (if query st is Some _ then 0
     else if firstDefined (serverQuery <$> rs) is Some _ then 1 else 0).
Proof.
  intros st. rewrite exec_rendered.
  assert (consistent st) as Hst by apply exec_consistent, mount_consistent.
  destruct (query st) as [held|] eqn:Hq.
  - by apply commits_set.
  - by apply commits_unset.
Qed.

(** ** The view *)

(** C4.  Precedence of the view: Loading exactly when the loader is
    loading and the local state is unset; otherwise Error whenever the
    loader reports an error, also when the local state holds a value;
    otherwise the workspace bound to the local state when it is set;
    otherwise nothing. *)
Theorem pageContent_precedence (isLoading : bool) (error : option Err)
    (query : option Query) :
  (pageContent mapQuery isLoading error query = LoadingQuery
     ↔ isLoading = true ∧ query = None)
  ∧ (¬ (isLoading = true ∧ query = None) →
     (is_Some error →
      pageContent mapQuery isLoading error query = QueryError)
     ∧ (error = None →
        ∀ q, query = Some q →
             pageContent mapQuery isLoading error query
             = QueryWorkspace (mapQuery q))
     ∧ (error = None → query = None →
        pageContent mapQuery isLoading error query = Fragment)).
Proof.
  unfold pageContent.
  destruct isLoading, error as [e|], query as [q|]; simpl;
    (split; [split; [try done; by intros|by intros [??]]|]);
    intros Hn; (split; [|split]); try done;
    try (by intros [??]); try (by intros ? ? [= ->]);
    try (by destruct Hn).
Qed.

(** C8.  The view is a function of the loading flag, the error and the
    local state alone: two renders that agree on these three show the
    same view, whatever else differs between them (the identifier, the
    loader's data, the dependency recorded by the effect). *)
Theorem render_deterministic r1 r2 st1 st2 :
  isLoadingServerQuery r1 = isLoadingServerQuery r2 →
  error r1 = error r2 →
  query st1 = query st2 →
  render mapQuery r1 st1 = render mapQuery r2 st2.
Proof. unfold render. by intros -> -> ->. Qed.

(** ** Dispatching *)

(** C2, amended.  When the remote call of a handler resolves with [q],
    the handler writes [q] to the local state whatever the state held,
    and calls the refresh only after that write; the next render shows
    the workspace bound to [q] when the loader reports no error at that
    render, and the error view when it does. *)
Theorem dispatch_resolved w h r st q (next : Render) :
  remote w (call_of h r) = Resolved q →
  let res := run w (handler h r) st in
  query (state_after res) = Some q
  ∧ trace_of res = [ERemote (call_of h r); EWrote (Some q); EMutate]
  ∧ render mapQuery next (state_after res) =
      (if error next is Some _ then QueryError
       else QueryWorkspace (mapQuery q)).
Proof.
  intros Hq res. subst res. rewrite run_handler, Hq.
  unfold state_after, trace_of, render, pageContent; simpl.
  split; [done|]. split; [done|].
  by destruct (isLoadingServerQuery next), (error next).
Qed.

(** C3.  When the remote call of a handler rejects, the local state is
    left as it was, the refresh is not called, and the handler's promise
    rejects with the same reason. *)
Theorem dispatch_rejected w h r st e :
  remote w (call_of h r) = Rejected e →
  let res := run w (handler h r) st in
  state_after res = st
  ∧ (EMutate ∉ trace_of res)
  ∧ outcome_of res = Rejected e.
Proof.
  intros He res. subst res. rewrite run_handler, He.
  unfold state_after, trace_of, outcome_of; simpl.
  split; [done|]. split; [|done].
  by intros [=]%list_elem_of_singleton.
Qed.

(** C5, amended.  After a mutation that succeeded, the page neither
    catches nor inspects the refresh: the handler's promise settles
    exactly as the promise of the refresh does, so a refresh that
    rejects rejects the handler's promise; the local state, already
    written from the mutation's result, is the same whatever the
    refresh does. *)
Theorem refresh_outcome_returned w h r st q :
  remote w (call_of h r) = Resolved q →
  let res := run w (handler h r) st in
  outcome_of res = refresh w
  ∧ query (state_after res) = Some q
  ∧ ∀ o : Outcome Err Refreshed, state_after
           (run {| remote := remote w; refresh := o |} (handler h r) st)
         = state_after res.
Proof.
  intros Hq res. subst res. rewrite run_handler, Hq.
  split; [done|]. split; [done|].
  intros o. rewrite run_handler. simpl. by rewrite Hq.
Qed.

(** ** Sequences *)

(** The frames of an initial load: the report that first carries the
    data is rendered once with the state still unset, before the effect
    seeds it. *)
Lemma initial_load_frames (id : Param) (Q1 : Query) :
  let r1 : Render := {| promptId := id; serverQuery := None;
               isLoadingServerQuery := true; error := None |} in
  let r2 : Render := {| promptId := id; serverQuery := Some Q1;
               isLoadingServerQuery := false; error := None |} in
  frames mapQuery r1 mount = [LoadingQuery]
  ∧ frames mapQuery r2 (commit r1 mount)
    = [Fragment; QueryWorkspace (mapQuery Q1)].
Proof.
  intros r1 r2. unfold frames, render, commit; simpl.
  repeat (case_decide; simplify_eq/=); done.
Qed.

(** C6.  Initial load: when the loader first reports that it is loading
    without data and then reports the data [Q1], not loading, with no
    error and no mutation in between, the page shows the loading view
    for the first report and the workspace bound to [Q1] for the
    second. *)
Theorem initial_load (id : Param) (Q1 : Query) :
  let r1 : Render := {| promptId := id; serverQuery := None;
               isLoadingServerQuery := true; error := None |} in
  let r2 : Render := {| promptId := id; serverQuery := Some Q1;
               isLoadingServerQuery := false; error := None |} in
  settled mapQuery r1 mount = LoadingQuery
  ∧ settled mapQuery r2 (commit r1 mount) = QueryWorkspace (mapQuery Q1).
Proof.
  intros r1 r2. unfold settled. split.
  - unfold render, commit; simpl.
    by repeat (case_decide; simplify_eq/=).
  - assert (query (commit r2 (commit r1 mount)) = Some Q1) as Hq.
    { rewrite commit_query_unset; [done| |].
      - apply commit_consistent, mount_consistent.
      - by rewrite commit_query_unset by (done || apply mount_consistent). }
    unfold render. by rewrite Hq.
Qed.

(** C9.  A change of identifier does not re-arm the latch: once the
    local state is set, it keeps its value through any further renders,
    whatever identifier and loader data they carry; and the effect phase
    of a commit does not depend on the identifier at all. *)
Theorem latch_survives_identifier_change st q (rs : list Render) :
  query st = Some q →
  query (exec (Rendered <$> rs) st) = Some q
  ∧ ∀ r id, commit (at_promptId id r) st = commit r st.
Proof.
  intros Hq. split; [|done].
  rewrite exec_rendered. by apply commits_set.
Qed.

(** C10.  The local state never goes from set to unset: from any state
    in which it is set, it is set after any sequence of renders and
    handler runs. *)
Theorem query_never_unset st evs :
  is_Some (query st) → is_Some (query (exec evs st)).
Proof.
  unfold exec. revert st.
  induction evs as [|ev evs IH]; intros st Hst; [done|].
  simpl. apply IH. destruct Hst as [q Hq].
  destruct ev as [r|h r w]; simpl.
  - rewrite (commit_query_set r st q Hq). by eexists.
  - rewrite run_handler. destruct (remote w _); by eexists.
Qed.

(** ** The page over its lifetime *)

Lemma commit_query r st :
  consistent st →
  query (commit r st) = if query st is Some q then Some q else serverQuery r.
Proof.
  intros Hst. destruct (query st) as [q|] eqn:Hq.
  - by apply commit_query_set.
  - by apply commit_query_unset.
Qed.

Lemma exec_query evs st :
  consistent st →
  query (exec evs st) =
    if lastResolved evs is Some q then Some q
    else if query st is Some q then Some q
    else firstDefined (deliveries evs).
Proof.
  unfold exec. revert st.
  induction evs as [|ev evs IH]; intros st Hst; simpl.
  { by destruct (query st). }
  rewrite IH by (by apply step_consistent).
  destruct (lastResolved evs) as [q'|]; [done|].
  destruct ev as [r|h r w]; simpl.
  - rewrite commit_query by done.
    destruct (query st) as [q|]; [done|].
    by destruct (serverQuery r).
  - rewrite run_handler. by destruct (remote w _).
Qed.

Lemma exec_query_set evs st q :
  query st = Some q →
  query (exec evs st) = Some (default q (lastResolved evs)).
Proof.
  unfold exec. revert st q.
  induction evs as [|ev evs IH]; intros st q Hq; simpl; [done|].
  assert (query (step st ev) = Some (default q (resolution ev))) as H1.
  { destruct ev as [rr|h rr w]; simpl.
    - by apply commit_query_set.
    - rewrite run_handler. by destruct (remote w _). }
  rewrite (IH _ _ H1). by destruct (lastResolved evs).
Qed.

(** X1.  The view the page rests on for a loader report is the view of
    the local state when it is set and of the loader's data when it is
    not: the effect that follows the render has seeded the state by
    then.  This holds in every state the page can reach from its
    mount. *)
Theorem settled_view (pre : list Event) r :
  let st := exec pre mount in
  settled mapQuery r st =
    pageContent mapQuery (isLoadingServerQuery r) (error r)
      (if query st is Some q then Some q else serverQuery r).
Proof.
  intros st. unfold settled, render. f_equal.
  apply commit_query, exec_consistent, mount_consistent.
Qed.

(** X2.  Rendering settles: once a loader report was committed,
    committing the same report again changes nothing, so the render
    that follows a seeding is the last one the report causes. *)
Theorem commit_settles r st :
  commit r (commit r st) = commit r st
  ∧ frames mapQuery r (commit r st) = [settled mapQuery r st].
Proof.
  assert (commit r (commit r st) = commit r st) as Hc.
  { unfold commit at 1. rewrite commit_deps. by case_decide. }
  split; [done|]. unfold frames, settled. rewrite Hc.
  by case_decide.
Qed.

(** X3.  The dependency array of the effect saves work and nothing
    else: in every state the page can reach from its mount, a commit
    leaves the local state as running the body of the effect on every
    render would. *)
Theorem dependency_array_unobservable (pre : list Event) r :
  let st := exec pre mount in
  query (commit r st) = query (effect r st).
Proof.
  intros st. rewrite effect_query.
  apply commit_query, exec_consistent, mount_consistent.
Qed.

(** X4.  The local state over the lifetime of a page: after any history
    of renders and handler runs since the mount, it is the result of
    the last handler run whose remote operation resolved; when there is
    none it is the first defined data the loader delivered; it is unset
    when there is neither. *)
Theorem lifetime_state evs :
  query (exec evs mount) =
    if lastResolved evs is Some q then Some q
    else firstDefined (deliveries evs).
Proof. rewrite exec_query by apply mount_consistent. done. Qed.

(** X5.  Once the local state is set, the page shows neither the
    loading view nor the empty one again: after any further history,
    a render shows the error view when the loader reports an error and
    otherwise the workspace, bound to the result of the last resolved
    handler run of that history, or to the held query when there is
    none; the loading flag of the loader has no part in it. *)
Theorem set_page_view st q evs r :
  query st = Some q →
  render mapQuery r (exec evs st) =
    if error r is Some _ then QueryError
    else QueryWorkspace (mapQuery (default q (lastResolved evs))).
Proof.
  intros Hq. pose proof (exec_query_set evs st q Hq) as Hx.
  unfold render, pageContent. rewrite Hx. simpl.
  by destruct (isLoadingServerQuery r), (error r).
Qed.

(** X6.  What the caller of a handler sees: the handler's promise
    resolves exactly when its remote operation resolved and the refresh
    resolved, with the value of the refresh; it rejects with the reason
    of the remote operation when that rejected, and with the reason of
    the refresh when the remote operation resolved and the refresh
    rejected. *)
Theorem handler_outcome w h r st (v : Refreshed) e :
  let res := run w (handler h r) st in
  (outcome_of res = Resolved v
     ↔ (∃ q, remote w (call_of h r) = Resolved q) ∧ refresh w = Resolved v)
  ∧ (outcome_of res = Rejected e
     ↔ remote w (call_of h r) = Rejected e
       ∨ ((∃ q, remote w (call_of h r) = Resolved q)
          ∧ refresh w = Rejected e)).
Proof.
  intros res. subst res. rewrite run_handler.
  destruct (remote w (call_of h r)) as [q|e'] eqn:Hr;
    unfold outcome_of; simpl; split; split.
  - intros ->. split; [by eexists|done].
  - by intros [_ ->].
  - intros ->. right. split; [by eexists|done].
  - intros [[=]|[_ ->]]. done.
  - done.
  - by intros [[q [=]] _].
  - intros [= ->]. by left.
  - intros [[= ->]|[[q [=]] _]]. done.
Qed.

(** X7.  A handler run makes one remote call, whether it resolves or
    rejects: there is no retry and no second operation, and the call
    carries the identifier of the render that created the handler. *)
Theorem handler_calls_once w h r st :
  remoteCalls (trace_of (run w (handler h r) st)) = [call_of h r]
  ∧ call_id (call_of h r) = promptId r.
Proof.
  rewrite run_handler. split.
  - by destruct (remote w _).
  - by destruct h.
Qed.

End Properties.

(** * The statements on the sample data *)

(** The frames of an initial load, evaluated. *)
Example sample_initial_load_frames :
  frames Sample.mapQuery (Sample.loading "a") mount = [LoadingQuery]
  ∧ frames Sample.mapQuery (Sample.loaded "a" 1)
      (commit (Sample.loading "a") mount)
    = [Fragment; QueryWorkspace 1].
Proof. split; reflexivity. Qed.

(** Three deliveries to a fresh page: nothing, query [1], query [2].  The
    page adopts [1], once. *)
Example sample_deliveries :
  let rs := [Sample.loading "a"; Sample.loaded "a" 1; Sample.loaded "a" 2] in
  query (commits rs mount) = Some 1 ∧ adoptions rs mount = 1.
Proof. split; reflexivity. Qed.

(** A later delivery of another query leaves the seeded page as it is. *)
Example sample_later_delivery_ignored :
  query (commit (Sample.loaded "a" 2) Sample.seeded) = Some 1
  ∧ render Sample.mapQuery (Sample.loaded "a" 2) Sample.seeded
    = QueryWorkspace 1.
Proof. split; reflexivity. Qed.

(** C2, as stated, fails.  The page is seeded with query [1]; the user
    runs [execute(id, "SELECT 1")], which resolves with query [3]; by
    the time of the next render a revalidation of the loader has failed.
    The local state is [3] and the refresh was called after the write,
    but the render shows the error view, not the workspace bound to
    [3]. *)
Lemma execute_then_error_view :
  let res :=
    run (Sample.answers 3 (Resolved ()))
      (handler (OnExecuteQuery "SELECT 1") (Sample.loaded "a" 1))
      Sample.seeded in
  query (state_after res) = Some 3
  ∧ trace_of res = [ERemote (Execute "a" "SELECT 1"); EWrote (Some 3); EMutate]
  ∧ render Sample.mapQuery (Sample.failed "a" 1) (state_after res)
    = QueryError
  ∧ render Sample.mapQuery (Sample.failed "a" 1) (state_after res)
    ≠ QueryWorkspace (Sample.mapQuery 3).
Proof. repeat split; try reflexivity. discriminate. Qed.

(** C5, as stated, fails.  The same successful mutation, once with a
    refresh that resolves and once with a refresh that rejects: the
    handler's promise resolves in the first run and rejects in the
    second, so its caller tells the two apart; the local state is [3]
    in both. *)
Lemma refresh_rejection_reaches_caller :
  let h := handler OnResubmitQuery (Sample.loaded "a" 1) in
  let ok := run (Sample.answers 3 (Resolved ())) h Sample.seeded in
  let ko :=
    run (Sample.answers 3 (Rejected "refresh failed"%string)) h
      Sample.seeded in
  outcome_of ok = Resolved ()
  ∧ outcome_of ko = Rejected "refresh failed"%string
  ∧ outcome_of ko ≠ outcome_of ok
  ∧ query (state_after ok) = Some 3
  ∧ query (state_after ko) = Some 3.
Proof. repeat split; try reflexivity. discriminate. Qed.

Lemma dispatch_resolved_witness :
  let w := Sample.answers 3 (Resolved ()) in
  let h := OnExecuteQuery "SELECT 1" in
  let r := Sample.loaded "a" 1 in
  let res := run w (handler h r) Sample.seeded in
  remote w (call_of h r) = Resolved 3
  ∧ query (state_after res) = Some 3
  ∧ trace_of res = [ERemote (call_of h r); EWrote (Some 3); EMutate]
  ∧ render Sample.mapQuery (Sample.loaded "a" 1) (state_after res)
    = QueryWorkspace (Sample.mapQuery 3).
Proof.
  split; [reflexivity|].
  apply (dispatch_resolved Sample.mapQuery
           (Sample.answers 3 (Resolved ())) (OnExecuteQuery "SELECT 1")
           (Sample.loaded "a" 1) Sample.seeded 3 (Sample.loaded "a" 1)).
  reflexivity.
Defined.

Lemma dispatch_rejected_witness :
  let w := Sample.rejects "timeout" in
  let r := Sample.loaded "a" 1 in
  let res := run w (handler OnResubmitQuery r) Sample.seeded in
  remote w (call_of OnResubmitQuery r) = Rejected "timeout"%string
  ∧ state_after res = Sample.seeded
  ∧ (EMutate ∉ trace_of res)
  ∧ outcome_of res = Rejected "timeout"%string.
Proof.
  split; [reflexivity|].
  apply (dispatch_rejected (Sample.rejects "timeout") OnResubmitQuery
           (Sample.loaded "a" 1) Sample.seeded "timeout"%string).
  reflexivity.
Defined.

Lemma refresh_outcome_returned_witness :
  let w := Sample.answers 3 (Rejected "refresh failed"%string) in
  let h := OnPutQuery "sql_query"%string in
  let r := Sample.loaded "a" 1 in
  let res := run w (handler h r) Sample.seeded in
  remote w (call_of h r) = Resolved 3
  ∧ outcome_of res = Rejected "refresh failed"%string
  ∧ query (state_after res) = Some 3
  ∧ ∀ o : Outcome string unit,
      state_after
        (run {| remote := remote w; refresh := o |} (handler h r)
           Sample.seeded)
      = state_after res.
Proof.
  split; [reflexivity|].
  apply (refresh_outcome_returned
           (Sample.answers 3 (Rejected "refresh failed"%string))
           (OnPutQuery "sql_query"%string) (Sample.loaded "a" 1)
           Sample.seeded 3).
  reflexivity.
Defined.

Lemma render_deterministic_witness :
  let r1 := Sample.loaded "a" 1 in
  let r2 := Sample.loaded "b" 2 in
  let st1 : Sample.PageState := {| query := Some 3; deps := Some (Some 1) |} in
  let st2 : Sample.PageState := {| query := Some 3; deps := None |} in
  isLoadingServerQuery r1 = isLoadingServerQuery r2
  ∧ error r1 = error r2
  ∧ query st1 = query st2
  ∧ render Sample.mapQuery r1 st1 = render Sample.mapQuery r2 st2.
Proof.
  repeat (split; [reflexivity|]).
  apply (render_deterministic Sample.mapQuery
           (Sample.loaded "a" 1) (Sample.loaded "b" 2)
           {| query := Some 3; deps := Some (Some 1) |}
           {| query := Some 3; deps := None |});
    reflexivity.
Defined.

Lemma latch_survives_identifier_change_witness :
  let rs := [Sample.loading "b"; Sample.loaded "b" 2] in
  query Sample.seeded = Some 1
  ∧ query (exec (Rendered (QueryPutRequest:=string) (Refreshed:=unit) <$> rs)
             Sample.seeded) = Some 1
  ∧ ∀ (r : Sample.Render) (id : string),
      commit (at_promptId id r) Sample.seeded = commit r Sample.seeded.
Proof.
  split; [reflexivity|].
  apply (latch_survives_identifier_change (Err:=string) (Param:=string)
           (QueryPutRequest:=string) (Refreshed:=unit)
           Sample.seeded 1 [Sample.loading "b"; Sample.loaded "b" 2]).
  reflexivity.
Defined.

Lemma query_never_unset_witness :
  let evs : list Sample.Event :=
    [Rendered (Sample.loaded "a" 2);
     Dispatched OnResubmitQuery (Sample.loaded "a" 2) (Sample.rejects "timeout");
     Dispatched (OnExecuteQuery "SELECT 1") (Sample.loaded "a" 2)
       (Sample.answers 3 (Resolved ()));
     Rendered (Sample.failed "b" 4)] in
  is_Some (query Sample.seeded)
  ∧ is_Some (query (exec evs Sample.seeded)).
Proof.
  assert (is_Some (query Sample.seeded)) as H by (by exists 1).
  split; [exact H|].
  apply (query_never_unset Sample.seeded); exact H.
Defined.

(** A lifetime, evaluated: the loader delivers query [1], a resubmit
    rejects, an execute resolves with [3], the loader delivers [2].
    The page ends on the result of the execute. *)
Example sample_lifetime :
  let evs : list Sample.Event :=
    [Rendered (Sample.loading "a");
     Rendered (Sample.loaded "a" 1);
     Dispatched OnResubmitQuery (Sample.loaded "a" 1) (Sample.rejects "timeout");
     Dispatched (OnExecuteQuery "SELECT 1") (Sample.loaded "a" 1)
       (Sample.answers 3 (Resolved ()));
     Rendered (Sample.loaded "a" 2)] in
  lastResolved evs = Some 3
  ∧ deliveries evs = [None; Some 1; Some 2]
  ∧ query (exec evs mount) = Some 3.
Proof. repeat split; reflexivity. Qed.

Lemma set_page_view_witness :
  let evs : list Sample.Event :=
    [Rendered (Sample.loaded "a" 2);
     Dispatched (OnExecuteQuery "SELECT 1") (Sample.loaded "a" 2)
       (Sample.answers 3 (Resolved ()));
     Dispatched OnResubmitQuery (Sample.loaded "a" 2) (Sample.rejects "timeout");
     Rendered (Sample.loading "b")] in
  query Sample.seeded = Some 1
  ∧ render Sample.mapQuery (Sample.loading "b") (exec evs Sample.seeded)
    = QueryWorkspace (Sample.mapQuery 3).
Proof.
  split; [reflexivity|].
  apply (set_page_view Sample.mapQuery Sample.seeded 1).
  reflexivity.
Defined.
